(** * Authentication and API-key issuance services

    A shallow embedding of [project/authenticate_user_service.py],
    [project/issue_api_key_service.py] and the two delivery endpoints of
    [project/server.py] that wrap them, followed by the properties the
    specification states about them.

    Conventions.
    - A [datetime] is a [Z]: microseconds since the epoch, the resolution
      of Python's [datetime].  A [timedelta] is a [Z] number of
      microseconds; Python normalises every [timedelta] to such a total.
    - The database, the module-level signing secret, the two clocks and
      the operating system's entropy are the fields of [World]; the
      [async] service functions are computations in the monad [M], which
      threads the world and propagates a raised [HTTPException].  An
      endpoint returns a value or lets an exception escape ([Outcome]).
    - Third-party libraries (passlib, PyJWT, Starlette's exception
      printer) are the fields of the classes [Passlib], [PyJWT] and
      [Starlette]: the services are defined and verified for every
      implementation of them. *)

From Stdlib Require Import ZArith Lia Ascii.
From stdpp Require Import base strings list gmap pretty.

Local Open Scope string_scope.
Local Open Scope Z_scope.

(** ** Time *)

Definition datetime := Z.
Definition timedelta := Z.

(** [timedelta(minutes=m)] and [timedelta(days=d)]. *)
Definition timedelta_minutes (m : Z) : timedelta := m * 60000000.
Definition timedelta_days (d : Z) : timedelta := d * 86400000000.

(** Truth value of a [timedelta] in a condition: false exactly for the
    zero duration. *)
Definition timedelta_bool (d : timedelta) : bool := negb (d =? 0).

(** ** Data model *)

(** Modelled from the spec: the Prisma schema (the [UserRole] enum and the
    [User] model) is not part of the sources.  The services read the
    members below; [ADMIN] is the only role they name, every other role
    is an [OtherRole]. *)
Inductive UserRole :=
  | ADMIN
  | OtherRole (name : string).

#[global] Instance UserRole_eq_dec : EqDecision UserRole.
Proof. solve_decision. Defined.

(** Modelled from the spec: a row of the [User] table.  [other] stands for
    the columns the services never touch. *)
Module User.
Record t := mk {
  id : string;
  email : string;
  password : string;
  role : UserRole;
  apiKey : option string;
  other : list (string * string)
}.

(** The row after [data={"apiKey": key}] has been written to it. *)
Definition with_apiKey (u : t) (key : string) : t :=
  {| id := id u; email := email u; password := password u;
     role := role u; apiKey := Some key; other := other u |}.
End User.

(** [fastapi.HTTPException(status_code=..., detail=...)]. *)
Module HTTPException.
Record t := mk { status_code : Z; detail : string }.
End HTTPException.

(** An exception that leaves an endpoint function. *)
Inductive Exception :=
  | HTTPError (e : HTTPException.t)
  | AttributeError (message : string).

(** What a caller passes as [content] to [Response]: [None], [bytes], a
    [str] or a dictionary of strings. *)
Inductive Content :=
  | NoContent
  | Bytes (b : string)
  | Text (s : string)
  | Dict (d : gmap string string).

(** [fastapi.responses.Response].  The constructor renders its content
    into the body: [None] is the empty body, [bytes] are the body, and
    anything else is asked for its [encode] method, which a dictionary
    does not have. *)
Module Response.
Record t := mk {
  body : string;
  status_code : Z;
  media_type : string
}.

Definition render (content : Content) : Exception + string :=
  match content with
  | NoContent => inr EmptyString
  | Bytes b => inr b
  | Text s => inr s
  | Dict _ => inl (AttributeError "'dict' object has no attribute 'encode'")
  end.

Definition init (content : Content) (status_code : Z) (media_type : string)
  : Exception + t :=
  match render content with
  | inl exc => inl exc
  | inr body => inr (mk body status_code media_type)
  end.
End Response.

(** A value in the payload of a token. *)
Inductive Claim :=
  | CStr (s : string)
  | CDatetime (t : datetime).

(** ** External libraries *)

(** [passlib.context.CryptContext(schemes=["bcrypt"]).verify], for the
    calls in which it answers; a call in which the library raises (a
    stored value that is no bcrypt hash) is not modelled. *)
Class Passlib := {
  pwd_context_verify : string -> string -> bool
}.

(** [jwt.encode] and [jwt.decode].  A token is opaque to the services;
    the one law relates decoding under the key and algorithm a token was
    signed with to the payload it was made from.  A time claim is read
    back at the resolution of the clock (PyJWT itself stores it as a
    NumericDate, in whole seconds).  Calls in which the library raises
    are not modelled. *)
Class PyJWT := {
  Token : Type;
  jwt_encode : gmap string Claim -> string -> string -> Token;
  jwt_decode : Token -> string -> string -> option (gmap string Claim);
  jwt_decode_encode :
    forall payload key algorithm,
      jwt_decode (jwt_encode payload key algorithm) key algorithm
      = Some payload
}.

(** [str(e)] for an [HTTPException]. *)
Class Starlette := {
  exception_str : HTTPException.t -> string
}.

(** ** The world and the monad of the services *)

Record World := mkWorld {
  users : list User.t;      (* the User table *)
  SECRET_KEY : string;      (* the module global of the same name *)
  utc_clock : datetime;     (* what datetime.utcnow() reads *)
  local_clock : datetime;   (* what datetime.now() reads *)
  entropy : nat -> Z;       (* the n-th 16-byte read of os.urandom *)
  draws : nat               (* how many reads have been made *)
}.

Definition set_users (w : World) (tbl : list User.t) : World :=
  {| users := tbl; SECRET_KEY := SECRET_KEY w; utc_clock := utc_clock w;
     local_clock := local_clock w; entropy := entropy w; draws := draws w |}.

Definition set_draws (w : World) (n : nat) : World :=
  {| users := users w; SECRET_KEY := SECRET_KEY w; utc_clock := utc_clock w;
     local_clock := local_clock w; entropy := entropy w; draws := n |}.

Definition set_local_clock (w : World) (t : datetime) : World :=
  {| users := users w; SECRET_KEY := SECRET_KEY w; utc_clock := utc_clock w;
     local_clock := t; entropy := entropy w; draws := draws w |}.

(** The value bound to [SECRET_KEY] by the module body, and [ALGORITHM]. *)
Definition SECRET_KEY_default : string := "YOUR_SECRET_KEY".
Definition ALGORITHM : string := "HS256".

Inductive Result (A : Type) :=
  | Return (a : A)
  | Raise (e : HTTPException.t).
Arguments Return {A} a.
Arguments Raise {A} e.

Definition M (A : Type) : Type := World -> Result A * World.

#[global] Instance M_ret : MRet M := fun A a w => (Return a, w).
#[global] Instance M_bind : MBind M := fun A B k m w =>
  match m w with
  | (Return a, w') => k a w'
  | (Raise e, w') => (Raise e, w')
  end.

(** [raise e]. *)
Definition raise {A} (e : HTTPException.t) : M A := fun w => (Raise e, w).

(** ** Clocks and entropy *)

Definition datetime_utcnow : M datetime := fun w => (Return (utc_clock w), w).
Definition datetime_now : M datetime := fun w => (Return (local_clock w), w).

(** [os.urandom(16)], read as a big-endian integer. *)
Definition os_urandom16 : M Z :=
  fun w => (Return (entropy w (draws w) mod 2 ^ 128), set_draws w (S (draws w))).

(** ** The standard library's [uuid] *)

(** [UUID(bytes=..., version=4)]: the variant and version bits are forced
    onto the 128-bit integer. *)
Definition uuid_version4 (int : Z) : Z :=
  let int := Z.land int (Z.lnot (Z.shiftl 0xc000 48)) in
  let int := Z.lor int (Z.shiftl 0x8000 48) in
  let int := Z.land int (Z.lnot (Z.shiftl 0xf000 64)) in
  Z.lor int (Z.shiftl 4 76).

Definition uuid4 : M Z :=
  bytes ← os_urandom16; mret (uuid_version4 bytes).

Definition hex_digit (d : Z) : ascii :=
  match d with
  | 0 => "0" | 1 => "1" | 2 => "2" | 3 => "3"
  | 4 => "4" | 5 => "5" | 6 => "6" | 7 => "7"
  | 8 => "8" | 9 => "9" | 10 => "a" | 11 => "b"
  | 12 => "c" | 13 => "d" | 14 => "e" | _ => "f"
  end%char.

(** The [i]-th hexadecimal digit of [x], counted from the least
    significant one. *)
Definition nibble (i : nat) (x : Z) : Z :=
  Z.land (Z.shiftr x (4 * Z.of_nat i)) 15.

(** ['%0kx' % x] for [0 <= x < 16^k]: [k] digits, most significant first. *)
Fixpoint hex (k : nat) (x : Z) : string :=
  match k with
  | O => EmptyString
  | S k' => String (hex_digit (nibble k' x)) (hex k' x)
  end.

(** [str(UUID)]: [hex = '%032x' % self.int], then the 32 digits in groups
    of 8, 4, 4, 4 and 12. *)
Definition uuid_groups (hex : string) : string :=
  String.substring 0 8 hex +:+ "-" +:+ String.substring 8 4 hex +:+ "-" +:+
  String.substring 12 4 hex +:+ "-" +:+ String.substring 16 4 hex +:+ "-" +:+
  String.substring 20 12 hex.

Definition uuid_str (int : Z) : string := uuid_groups (hex 32 int).

(** ** The Prisma client: the three queries the services issue *)

(** The row [find_unique] selects: the one whose column has the value. *)
Definition row_by_email (email : string) (tbl : list User.t) : option User.t :=
  List.find (fun u => bool_decide (User.email u = email)) tbl.

Definition row_by_id (id : string) (tbl : list User.t) : option User.t :=
  List.find (fun u => bool_decide (User.id u = id)) tbl.

(** [User.prisma().find_unique(where={"email": email})]. *)
Definition find_unique_email (email : string) : M (option User.t) :=
  fun w => (Return (row_by_email email (users w)), w).

(** [User.prisma().find_unique(where={"id": id})]. *)
Definition find_unique_id (id : string) : M (option User.t) :=
  fun w => (Return (row_by_id id (users w)), w).

(** The table after [update(where={"id": id}, data={"apiKey": key})]: the
    row that [find_unique] selects gets the key; a table without such a
    row is left as it is. *)
Fixpoint update_row (id key : string) (tbl : list User.t) : list User.t :=
  match tbl with
  | [] => []
  | u :: rest =>
      if bool_decide (User.id u = id)
      then User.with_apiKey u key :: rest
      else u :: update_row id key rest
  end.

Definition update_apiKey (id key : string) : M unit :=
  fun w => (Return (), set_users w (update_row id key (users w))).

(** Reading the module global. *)
Definition read_SECRET_KEY : M string := fun w => (Return (SECRET_KEY w), w).

(** ** [project/issue_api_key_service.py] *)

Module IssueApiKeyResponse.
Record t := mk {
  api_key : string;
  permissions : list string;
  expiration_date : datetime
}.
End IssueApiKeyResponse.

Definition issue_api_key (user_id : string) (permissions : list string)
  : M IssueApiKeyResponse.t :=
  user ← find_unique_id user_id;
  match user with
  | None => raise (HTTPException.mk 404 "User not found.")
  | Some user =>
      if bool_decide (User.role user ≠ ADMIN)
      then raise (HTTPException.mk 403 "Insufficient permissions.")
      else
        uuid ← uuid4;
        let new_api_key := uuid_str uuid in
        now ← datetime_now;
        let expiration_date := now + timedelta_days 365 in
        update_apiKey user_id new_api_key;;
        mret (IssueApiKeyResponse.mk new_api_key permissions expiration_date)
  end.

(** ** [project/authenticate_user_service.py] *)

Module AuthenticationResponse.
Record t (Tok : Type) := mk {
  access_token : Tok;
  token_type : string
}.
Arguments mk {Tok} _ _.
Arguments access_token {Tok} _.
Arguments token_type {Tok} _.
End AuthenticationResponse.

Section Authenticate.
Context `{Passlib} `{PyJWT}.

Definition verify_password (plain_password hashed_password : string) : M bool :=
  mret (pwd_context_verify plain_password hashed_password).

Definition get_user (username : string) : M User.t :=
  user ← find_unique_email username;
  match user with
  | None => raise (HTTPException.mk 404 "User not found")
  | Some user => mret user
  end.

Definition create_access_token
    (data : gmap string Claim) (expires_delta : option timedelta) : M Token :=
  let to_encode := data in
  to_encode ←
    match expires_delta with
    | Some delta =>
        if timedelta_bool delta
        then now ← datetime_utcnow;
             mret (<["exp" := CDatetime (now + delta)]> to_encode)
        else now ← datetime_utcnow;
             mret (<["exp" := CDatetime (now + timedelta_minutes 15)]> to_encode)
    | None =>
        now ← datetime_utcnow;
        mret (<["exp" := CDatetime (now + timedelta_minutes 15)]> to_encode)
    end;
  key ← read_SECRET_KEY;
  let encoded_jwt := jwt_encode to_encode key ALGORITHM in
  mret encoded_jwt.

Definition authenticate_user (username password : string)
  : M (AuthenticationResponse.t Token) :=
  user ← get_user username;
  verified ← verify_password password (User.password user);
  if negb verified
  then raise (HTTPException.mk 401 "Incorrect username or password")
  else
    let access_token_expires := timedelta_minutes 60 in
    access_token ←
      create_access_token {["sub" := CStr (User.email user)]}
                          (Some access_token_expires);
    mret (AuthenticationResponse.mk access_token "bearer").
End Authenticate.

(** ** [project/server.py]: the two endpoints of the services *)

(** What a call of an endpoint function does: it returns a value, or an
    exception leaves it. *)
Inductive Outcome (A : Type) :=
  | Returned (a : A)
  | Escaped (exc : Exception).
Arguments Returned {A} a.
Arguments Escaped {A} exc.

Definition Endpoint (A : Type) : Type := World -> Outcome A * World.

(** [try: res = await body; return res] followed by
    [except Exception as e: return handler(e)]: the value of the body is
    returned; an exception of the body goes to the handler, and what the
    handler raises leaves the function. *)
Definition try_except {A B}
    (body : M A) (handler : HTTPException.t -> Exception + B) : Endpoint (A + B) :=
  fun w =>
    match body w with
    | (Return a, w') => (Returned (inl a), w')
    | (Raise e, w') =>
        match handler e with
        | inl exc => (Escaped exc, w')
        | inr b => (Returned (inr b), w')
        end
    end.

(** [jsonable_encoder] on a dictionary of strings. *)
Definition jsonable_encoder (d : gmap string string) : gmap string string := d.

Section Server.
Context `{Passlib} `{PyJWT} `{Starlette}.

(** The body of every [except] clause of the module; the line it logs
    is the fixed text ["Error processing request"]. *)
Definition except_clause (e : HTTPException.t) : Exception + Response.t :=
  let res : gmap string string := ∅ in
  let res := <["error" := exception_str e]> res in
  Response.init (Dict (jsonable_encoder res)) 500 "application/json".

Definition api_post_issue_api_key (user_id : string) (permissions : list string)
  : Endpoint (IssueApiKeyResponse.t + Response.t) :=
  try_except (issue_api_key user_id permissions) except_clause.

Definition api_post_authenticate_user (username password : string)
  : Endpoint (AuthenticationResponse.t Token + Response.t) :=
  try_except (authenticate_user username password) except_clause.
End Server.

(** ** Notions used by the statements *)

(** The value of a hexadecimal digit; it inverts [hex_digit]. *)
Definition hex_value (c : ascii) : Z :=
  match c with
  | "0" => 0 | "1" => 1 | "2" => 2 | "3" => 3
  | "4" => 4 | "5" => 5 | "6" => 6 | "7" => 7
  | "8" => 8 | "9" => 9 | "a" => 10 | "b" => 11
  | "c" => 12 | "d" => 13 | "e" => 14 | _ => 15
  end%char.

(** The UUID that the next call of [uuid4] returns in [w], and its text. *)
Definition next_uuid (w : World) : Z :=
  uuid_version4 (entropy w (draws w) mod 2 ^ 128).
Definition next_key (w : World) : string := uuid_str (next_uuid w).

(** [id] is a key of the table. *)
Definition ids_unique (tbl : list User.t) : Prop := NoDup (User.id <$> tbl).

(** The API keys the table holds for the user [id]. *)
Definition live_keys (id : string) (tbl : list User.t) : list string :=
  omap (fun u => if bool_decide (User.id u = id) then User.apiKey u else None) tbl.

Definition at_most_one_key (tbl : list User.t) : Prop :=
  forall id, (length (live_keys id tbl) <= 1)%nat.

(** Rows that agree on every column except [apiKey]. *)
Definition same_but_apiKey (u u' : User.t) : Prop :=
  User.id u = User.id u' /\ User.email u = User.email u' /\
  User.password u = User.password u' /\ User.role u = User.role u' /\
  User.other u = User.other u'.

(** Rows that agree on every column except [password]. *)
Definition same_but_password (u u' : User.t) : Prop :=
  User.id u = User.id u' /\ User.email u = User.email u' /\
  User.role u = User.role u' /\ User.apiKey u = User.apiKey u' /\
  User.other u = User.other u'.

(** Worlds that differ at most in the stored password hashes and in the
    signing secret. *)
Definition same_but_secrets (w1 w2 : World) : Prop :=
  Forall2 same_but_password (users w1) (users w2) /\
  utc_clock w1 = utc_clock w2 /\ local_clock w1 = local_clock w2 /\
  entropy w1 = entropy w2 /\ draws w1 = draws w2.

(** The claim [name] of a token, decoded under [key] and [ALGORITHM]. *)
Definition decoded_claim `{PyJWT} (key : string) (tok : Token) (name : string)
  : option Claim :=
  match jwt_decode tok key ALGORITHM with
  | Some payload => payload !! name
  | None => None
  end.

(** The bits of the 128-bit integer that [uuid_version4] overwrites: the
    two variant bits and the four version bits. *)
Definition forced_bit (i : Z) : bool :=
  ((62 <=? i) && (i <=? 63)) || ((76 <=? i) && (i <=? 79)).

(** The entropy a UUID keeps: the integer with the forced bits cleared. *)
Definition kept_bits (int : Z) : Z :=
  Z.land int (Z.lnot (Z.lor (Z.shiftl 0xc000 48) (Z.shiftl 0xf000 64))).

(** The textual shape of a version-4 UUID: 36 characters, lower-case
    hexadecimal digits in groups of 8, 4, 4, 4 and 12 separated by hyphens,
    the third group starting with [4] and the fourth with [8], [9], [a]
    or [b]. *)
Definition is_hex_digit (c : ascii) : bool :=
  match c with
  | "0" | "1" | "2" | "3" | "4" | "5" | "6" | "7" | "8" | "9"
  | "a" | "b" | "c" | "d" | "e" | "f" => true
  | _ => false
  end%char.

Definition is_variant_digit (c : ascii) : bool :=
  match c with
  | "8" | "9" | "a" | "b" => true
  | _ => false
  end%char.

Fixpoint all_hex (s : string) : bool :=
  match s with
  | EmptyString => true
  | String c s' => is_hex_digit c && all_hex s'
  end.

Definition char_is (p : ascii -> bool) (i : nat) (s : string) : bool :=
  match String.get i s with
  | Some c => p c
  | None => false
  end.

Definition uuid4_text (s : string) : bool :=
  (String.length s =? 36)%nat &&
  all_hex (String.substring 0 8 s) && char_is (Ascii.eqb "-") 8 s &&
  all_hex (String.substring 9 4 s) && char_is (Ascii.eqb "-") 13 s &&
  char_is (Ascii.eqb "4") 14 s && all_hex (String.substring 15 3 s) &&
  char_is (Ascii.eqb "-") 18 s &&
  char_is is_variant_digit 19 s && all_hex (String.substring 20 3 s) &&
  char_is (Ascii.eqb "-") 23 s && all_hex (String.substring 24 12 s).

(** [email] is a key of the table. *)
Definition emails_unique (tbl : list User.t) : Prop := NoDup (User.email <$> tbl).

(** ** A reference implementation of the libraries

    A symbolic model, used to run the services on concrete inputs: a hash
    is the password behind a fixed prefix, a token is the triple it was
    made from, and an exception prints as Starlette prints it. *)
Module Reference.
Record token := mk_token {
  payload : gmap string Claim;
  signing_key : string;
  algorithm : string
}.

Definition hash_of (password : string) : string := "$2b$12$" +:+ password.

#[global] Instance passlib : Passlib :=
  {| pwd_context_verify p h := bool_decide (h = hash_of p) |}.

Definition decode (t : token) (key alg : string) : option (gmap string Claim) :=
  if bool_decide (signing_key t = key ∧ algorithm t = alg)
  then Some (payload t) else None.

#[global] Instance pyjwt : PyJWT.
Proof.
  refine {| Token := token; jwt_encode := mk_token; jwt_decode := decode |}.
  intros p k a. unfold decode. simpl. by rewrite bool_decide_eq_true_2.
Defined.

#[global] Instance starlette : Starlette :=
  {| exception_str e :=
       pretty (HTTPException.status_code e) +:+ ": " +:+ HTTPException.detail e |}.

Definition alice : User.t :=
  User.mk "u1" "alice@example.com" (hash_of "correct horse") ADMIN None [].
Definition bob : User.t :=
  User.mk "u2" "bob@example.com" (hash_of "hunter2") (OtherRole "USER")
          (Some "old-key") [("name", "Bob")].

(** A world at 2024-01-01T00:00:00 UTC, local time one hour ahead. *)
Definition world : World :=
  {| users := [alice; bob];
     SECRET_KEY := SECRET_KEY_default;
     utc_clock := 1704067200000000;
     local_clock := 1704070800000000;
     entropy := fun n => 0x0123456789abcdef0123456789abcdef * (Z.of_nat n + 1);
     draws := 0 |}.

(** The same world with another hash stored for Alice and another
    signing secret. *)
Definition alice' : User.t :=
  User.mk "u1" "alice@example.com" (hash_of "tr0ub4dor") ADMIN None [].
Definition world' : World :=
  {| users := [alice'; bob];
     SECRET_KEY := "another secret";
     utc_clock := utc_clock world;
     local_clock := local_clock world;
     entropy := entropy world;
     draws := draws world |}.
End Reference.

(** A second scenario: the table of [Reference.world] with one more
    administrator. *)
Module Office.
Definition carol : User.t :=
  User.mk "u3" "carol@example.com" (Reference.hash_of "s3cret") ADMIN
          (Some "carol-key") [].

Definition world : World :=
  {| users := [Reference.alice; Reference.bob; carol];
     SECRET_KEY := SECRET_KEY_default;
     utc_clock := utc_clock Reference.world;
     local_clock := local_clock Reference.world;
     entropy := entropy Reference.world;
     draws := 0 |}.
End Office.

(** A third scenario: [Reference.world] with an entropy source that gives
    the same 16 bytes at every read. *)
Module Replay.
Definition world : World :=
  {| users := users Reference.world;
     SECRET_KEY := SECRET_KEY_default;
     utc_clock := utc_clock Reference.world;
     local_clock := local_clock Reference.world;
     entropy := fun _ => 0x0123456789abcdef0123456789abcdef;
     draws := 0 |}.
End Replay.

(** * Properties *)

(** ** The textual form of a UUID *)

Lemma hex_length k x : String.length (hex k x) = k.
Proof. induction k as [|k IH]; simpl; [done | by rewrite IH]. Qed.

Lemma uuid_str_length x : String.length (uuid_str x) = 36%nat.
Proof. reflexivity. Qed.

Lemma nibble_range i x : 0 <= nibble i x < 16.
Proof.
  unfold nibble. change 15 with (Z.ones 4).
  rewrite Z.land_ones by lia. apply Z.mod_pos_bound. lia.
Qed.

Lemma nibble_spec i x : nibble i x = (x / 16 ^ Z.of_nat i) mod 16.
Proof.
  unfold nibble. change 15 with (Z.ones 4).
  rewrite Z.land_ones, Z.shiftr_div_pow2 by lia.
  rewrite Z.pow_mul_r by lia. reflexivity.
Qed.

Lemma hex_value_digit d : 0 <= d < 16 -> hex_value (hex_digit d) = d.
Proof.
  intros Hd. destruct d as [|p|p]; [reflexivity | | lia].
  do 4 (try destruct p as [p|p|]); try reflexivity; lia.
Qed.

Lemma hex_digit_inj a b :
  0 <= a < 16 -> 0 <= b < 16 -> hex_digit a = hex_digit b -> a = b.
Proof.
  intros Ha Hb Heq.
  rewrite <- (hex_value_digit a Ha), <- (hex_value_digit b Hb).
  by rewrite Heq.
Qed.

Lemma hex_inj k x y :
  hex k x = hex k y -> x mod 16 ^ Z.of_nat k = y mod 16 ^ Z.of_nat k.
Proof.
  induction k as [|k IH]; intros Heq.
  - by rewrite !Z.mod_1_r.
  - cbn [hex] in Heq. injection Heq as Hd Hrest.
    apply hex_digit_inj in Hd; [| apply nibble_range ..].
    rewrite !nibble_spec in Hd. specialize (IH Hrest).
    rewrite Nat2Z.inj_succ, Z.pow_succ_r by lia.
    rewrite (Z.mul_comm 16).
    rewrite !Z.rem_mul_r by lia.
    by rewrite IH, Hd.
Qed.


Lemma uuid_groups_inj s t :
  String.length s = 32%nat -> String.length t = 32%nat ->
  uuid_groups s = uuid_groups t -> s = t.
Proof.
  intros Hs Ht.
  do 32 (destruct s as [|? s]; [discriminate Hs |]).
  destruct s; [| discriminate Hs].
  do 32 (destruct t as [|? t]; [discriminate Ht |]).
  destruct t; [| discriminate Ht].
  clear Hs Ht. unfold uuid_groups.
  cbn [String.substring String.append].
  intros Heq. injection Heq as ?. congruence.
Qed.

Lemma uuid_str_inj x y :
  0 <= x < 2 ^ 128 -> 0 <= y < 2 ^ 128 -> uuid_str x = uuid_str y -> x = y.
Proof.
  intros Hx Hy Heq.
  apply uuid_groups_inj, hex_inj in Heq; [| apply hex_length ..].
  change (16 ^ Z.of_nat 32) with (2 ^ 128) in Heq.
  by rewrite !Z.mod_small in Heq.
Qed.

Lemma bits_high_small x n i : 0 <= x < 2 ^ n -> n <= i -> Z.testbit x i = false.
Proof.
  intros Hx Hi.
  assert (0 <= n) by (destruct (Z.leb_spec 0 n); [done | rewrite Z.pow_neg_r in Hx; lia]).
  rewrite <- (Z.mod_small x (2 ^ n)) by done.
  apply Z.mod_pow2_bits_high. lia.
Qed.

Lemma small_bits_high x n :
  0 <= n -> 0 <= x -> (forall i, n <= i -> Z.testbit x i = false) -> x < 2 ^ n.
Proof.
  intros Hn Hx Hbits.
  assert (Hmod : x = x mod 2 ^ n).
  { apply Z.bits_inj'. intros i Hi. destruct (Z.lt_ge_cases i n).
    - by rewrite Z.mod_pow2_bits_low.
    - rewrite Z.mod_pow2_bits_high by lia. by apply Hbits. }
  rewrite Hmod. apply Z.mod_pos_bound. lia.
Qed.

Lemma uuid_version4_range r : 0 <= r < 2 ^ 128 -> 0 <= uuid_version4 r < 2 ^ 128.
Proof.
  intros Hr. unfold uuid_version4.
  set (c1 := Z.lnot (Z.shiftl 0xc000 48)).
  set (c3 := Z.lnot (Z.shiftl 0xf000 64)).
  assert (Hnn : 0 <= Z.lor (Z.land (Z.lor (Z.land r c1) (Z.shiftl 0x8000 48)) c3)
                          (Z.shiftl 4 76)).
  { apply Z.lor_nonneg. split; [| apply Z.shiftl_nonneg; lia].
    apply Z.land_nonneg. left. apply Z.lor_nonneg.
    split; [| apply Z.shiftl_nonneg; lia].
    apply Z.land_nonneg. left. lia. }
  split; [exact Hnn |].
  apply small_bits_high; [lia | exact Hnn |].
  intros i Hi.
  rewrite Z.lor_spec, Z.land_spec, Z.lor_spec, Z.land_spec.
  rewrite !Z.shiftl_spec by lia.
  rewrite (bits_high_small r 128 i) by lia.
  rewrite (bits_high_small 0x8000 16 (i - 48)) by lia.
  rewrite (bits_high_small 4 3 (i - 76)) by lia.
  reflexivity.
Qed.

(** ** The table *)

Lemma row_by_id_Some id tbl u :
  row_by_id id tbl = Some u -> User.id u = id /\ u ∈ tbl.
Proof.
  unfold row_by_id. intros Hfind. apply find_some in Hfind as [Hin Hid].
  split; [by apply bool_decide_eq_true in Hid | by apply list_elem_of_In].
Qed.

Lemma row_by_email_Some email tbl u :
  row_by_email email tbl = Some u -> User.email u = email /\ u ∈ tbl.
Proof.
  unfold row_by_email. intros Hfind. apply find_some in Hfind as [Hin Hid].
  split; [by apply bool_decide_eq_true in Hid | by apply list_elem_of_In].
Qed.

Lemma row_by_id_None id tbl :
  row_by_id id tbl = None -> id ∉ (User.id <$> tbl).
Proof.
  unfold row_by_id. intros Hfind Hin.
  apply list_elem_of_fmap in Hin as (u & -> & Hu).
  apply list_elem_of_In in Hu.
  apply (find_none _ _ Hfind) in Hu. by apply bool_decide_eq_false in Hu.
Qed.

Lemma update_row_None id key tbl :
  row_by_id id tbl = None -> update_row id key tbl = tbl.
Proof.
  unfold row_by_id. induction tbl as [|u tbl IH]; simpl; [done |].
  destruct (bool_decide (User.id u = id)); [done |].
  intros Hnone. by rewrite IH.
Qed.

Lemma update_row_ids id key tbl :
  User.id <$> update_row id key tbl = User.id <$> tbl.
Proof.
  induction tbl as [|u tbl IH]; [done |]. cbn [update_row].
  destruct (bool_decide (User.id u = id)); rewrite !fmap_cons; [done |].
  by rewrite IH.
Qed.

Lemma row_by_id_update_row id key tbl u :
  row_by_id id tbl = Some u ->
  row_by_id id (update_row id key tbl) = Some (User.with_apiKey u key).
Proof.
  unfold row_by_id. induction tbl as [|v tbl IH]; simpl; [done |].
  destruct (bool_decide (User.id v = id)) eqn:Hv; simpl.
  - intros [= ->]. by rewrite Hv.
  - intros Hfind. rewrite Hv. by apply IH.
Qed.

Lemma row_by_id_update_row_ne id id' key tbl :
  id' ≠ id -> row_by_id id' (update_row id key tbl) = row_by_id id' tbl.
Proof.
  intros Hne. unfold row_by_id. induction tbl as [|v tbl IH]; simpl; [done |].
  destruct (bool_decide (User.id v = id)) eqn:Hv; simpl.
  - apply bool_decide_eq_true in Hv.
    by rewrite !bool_decide_eq_false_2 by congruence.
  - by rewrite IH.
Qed.

Lemma update_row_frame id key tbl :
  Forall2 (fun u u' => u' = u \/ (User.id u = id /\ u' = User.with_apiKey u key))
          tbl (update_row id key tbl).
Proof.
  induction tbl as [|v tbl IH]; simpl; [constructor |].
  destruct (bool_decide (User.id v = id)) eqn:Hv.
  - apply bool_decide_eq_true in Hv. constructor; [by right |].
    apply Forall2_same_length_lookup_2; [done |].
    intros i x y Hx Hy. left. congruence.
  - constructor; [by left | exact IH].
Qed.

Lemma with_apiKey_same u key : same_but_apiKey u (User.with_apiKey u key).
Proof. by repeat split. Qed.

Lemma live_keys_cons id u tbl :
  live_keys id (u :: tbl) =
  if bool_decide (User.id u = id)
  then from_option (fun k => k :: live_keys id tbl) (live_keys id tbl) (User.apiKey u)
  else live_keys id tbl.
Proof.
  unfold live_keys. simpl.
  destruct (bool_decide (User.id u = id)); [| done].
  by destruct (User.apiKey u).
Qed.

Lemma live_keys_absent id tbl : id ∉ (User.id <$> tbl) -> live_keys id tbl = [].
Proof.
  induction tbl as [|u tbl IH]; [done |].
  rewrite fmap_cons, live_keys_cons.
  intros Hnotin. apply not_elem_of_cons in Hnotin as [Hne Hnotin].
  rewrite bool_decide_eq_false_2 by congruence. by apply IH.
Qed.

Lemma live_keys_update_row id key tbl u :
  ids_unique tbl -> row_by_id id tbl = Some u ->
  live_keys id (update_row id key tbl) = [key].
Proof.
  unfold ids_unique, row_by_id.
  induction tbl as [|v tbl IH]; [done |].
  rewrite fmap_cons. cbn [find update_row].
  intros Hnodup. apply NoDup_cons in Hnodup as [Hv Hnodup].
  destruct (bool_decide (User.id v = id)) eqn:Hid.
  - intros _. apply bool_decide_eq_true in Hid. subst id.
    rewrite live_keys_cons. simpl.
    rewrite bool_decide_eq_true_2 by done. simpl.
    f_equal. by apply live_keys_absent.
  - intros Hfind. rewrite live_keys_cons, Hid. by apply IH.
Qed.

Lemma ids_unique_one_key tbl : ids_unique tbl -> at_most_one_key tbl.
Proof.
  unfold ids_unique, at_most_one_key.
  induction tbl as [|v tbl IH]; intros Hnodup id; [simpl; lia |].
  rewrite fmap_cons in Hnodup. apply NoDup_cons in Hnodup as [Hv Hnodup].
  rewrite live_keys_cons.
  destruct (bool_decide (User.id v = id)) eqn:Hid.
  - apply bool_decide_eq_true in Hid. subst id.
    rewrite live_keys_absent by done.
    destruct (User.apiKey v); simpl; lia.
  - by apply IH.
Qed.

Lemma ids_unique_update_row id key tbl :
  ids_unique tbl -> ids_unique (update_row id key tbl).
Proof. unfold ids_unique. by rewrite update_row_ids. Qed.

(** ** [issue_api_key] *)

Lemma issue_api_key_not_found w user_id permissions :
  row_by_id user_id (users w) = None ->
  issue_api_key user_id permissions w
  = (Raise (HTTPException.mk 404 "User not found."), w).
Proof.
  intros Hrow. unfold issue_api_key, mbind, M_bind, find_unique_id.
  by rewrite Hrow.
Qed.

Lemma issue_api_key_denied w user_id permissions u :
  row_by_id user_id (users w) = Some u -> User.role u ≠ ADMIN ->
  issue_api_key user_id permissions w
  = (Raise (HTTPException.mk 403 "Insufficient permissions."), w).
Proof.
  intros Hrow Hrole. unfold issue_api_key, mbind, M_bind, find_unique_id.
  rewrite Hrow. by rewrite bool_decide_eq_true_2.
Qed.

Lemma issue_api_key_ok w user_id permissions u :
  row_by_id user_id (users w) = Some u -> User.role u = ADMIN ->
  issue_api_key user_id permissions w
  = (Return (IssueApiKeyResponse.mk (next_key w) permissions
                                    (local_clock w + timedelta_days 365)),
     set_users (set_draws w (S (draws w)))
               (update_row user_id (next_key w) (users w))).
Proof.
  intros Hrow Hrole. unfold issue_api_key, mbind, M_bind, find_unique_id.
  rewrite Hrow. rewrite bool_decide_eq_false_2 by (by intros []).
  reflexivity.
Qed.

(** The three outcomes of a call, by the row the lookup finds. *)
Lemma issue_api_key_cases w user_id permissions :
  (row_by_id user_id (users w) = None /\
   issue_api_key user_id permissions w
   = (Raise (HTTPException.mk 404 "User not found."), w)) \/
  (exists u, row_by_id user_id (users w) = Some u /\ User.role u ≠ ADMIN /\
   issue_api_key user_id permissions w
   = (Raise (HTTPException.mk 403 "Insufficient permissions."), w)) \/
  (exists u, row_by_id user_id (users w) = Some u /\ User.role u = ADMIN /\
   issue_api_key user_id permissions w
   = (Return (IssueApiKeyResponse.mk (next_key w) permissions
                                     (local_clock w + timedelta_days 365)),
      set_users (set_draws w (S (draws w)))
                (update_row user_id (next_key w) (users w)))).
Proof.
  destruct (row_by_id user_id (users w)) as [u|] eqn:Hrow.
  - destruct (decide (User.role u = ADMIN)) as [Hrole|Hrole].
    + right; right. exists u. eauto using issue_api_key_ok.
    + right; left. exists u. eauto using issue_api_key_denied.
  - left. eauto using issue_api_key_not_found.
Qed.

(** C3.  [issue_api_key] fails with 404 "User not found." (NotFound) when
    no row has the given id, whatever else holds; when the row exists and
    its role is not [ADMIN] it fails with 403 "Insufficient permissions."
    (Denied); and whenever the call fails, the world it leaves, the table
    included, is the world it started in. *)
Theorem issue_api_key_failure w user_id permissions :
  (row_by_id user_id (users w) = None ->
   issue_api_key user_id permissions w
   = (Raise (HTTPException.mk 404 "User not found."), w)) /\
  (forall u, row_by_id user_id (users w) = Some u -> User.role u ≠ ADMIN ->
   issue_api_key user_id permissions w
   = (Raise (HTTPException.mk 403 "Insufficient permissions."), w)) /\
  (forall e w', issue_api_key user_id permissions w = (Raise e, w') -> w' = w).
Proof.
  split; [apply issue_api_key_not_found |].
  split; [intros u; apply issue_api_key_denied |].
  intros e w' Hcall.
  destruct (issue_api_key_cases w user_id permissions)
    as [[_ Heq] | [(u & _ & _ & Heq) | (u & _ & _ & Heq)]];
    rewrite Heq in Hcall; congruence.
Qed.

Lemma issue_api_key_failure_witness :
  issue_api_key "u3" ["read"] Reference.world
  = (Raise (HTTPException.mk 404 "User not found."), Reference.world) /\
  issue_api_key "u2" ["read"] Reference.world
  = (Raise (HTTPException.mk 403 "Insufficient permissions."), Reference.world).
Proof.
  split.
  - apply (proj1 (issue_api_key_failure Reference.world "u3" ["read"])).
    reflexivity.
  - apply (proj1 (proj2 (issue_api_key_failure Reference.world "u2" ["read"]))
             Reference.bob).
    + reflexivity.
    + discriminate.
Defined.

(** C4.  A call for an existing [ADMIN] user returns a grant whose
    [expiration_date] is the local clock plus 365 days, whose key is the
    36-character text of the UUID made from the next 16 bytes of entropy
    (which the call consumes), and whose permissions are the list passed
    in; afterwards the row of that user holds the key. *)
Theorem issue_api_key_grant w user_id permissions u :
  row_by_id user_id (users w) = Some u -> User.role u = ADMIN ->
  exists key w',
    issue_api_key user_id permissions w
    = (Return (IssueApiKeyResponse.mk key permissions
                 (local_clock w + timedelta_days 365)), w') /\
    String.length key = 36%nat /\
    key = uuid_str (uuid_version4 (entropy w (draws w) mod 2 ^ 128)) /\
    draws w' = S (draws w) /\
    row_by_id user_id (users w') = Some (User.with_apiKey u key).
Proof.
  intros Hrow Hrole. eexists _, _.
  split; [by apply issue_api_key_ok with u |].
  split; [apply uuid_str_length |].
  split; [reflexivity |].
  split; [reflexivity |].
  simpl. by apply row_by_id_update_row.
Qed.

Lemma issue_api_key_grant_witness :
  exists key w',
    issue_api_key "u1" ["read"; "write"] Reference.world
    = (Return (IssueApiKeyResponse.mk key ["read"; "write"]
                 (local_clock Reference.world + timedelta_days 365)), w') /\
    String.length key = 36%nat /\
    key = uuid_str (uuid_version4 (entropy Reference.world 0 mod 2 ^ 128)) /\
    draws w' = 1%nat /\
    row_by_id "u1" (users w') = Some (User.with_apiKey Reference.alice key).
Proof.
  apply (issue_api_key_grant Reference.world "u1" ["read"; "write"] Reference.alice);
    reflexivity.
Defined.

(** C10.  A successful call changes the table in one place only: the row
    of the user keeps every column but [apiKey], which becomes the
    returned key, and every other row is the row it was.  The secret, the
    clocks and the entropy source are unchanged.  The table it leaves does
    not depend on the permissions passed in nor on the clock the
    expiration date is computed from: neither is written anywhere. *)
Theorem issue_api_key_frame w user_id permissions res w' :
  issue_api_key user_id permissions w = (Return res, w') ->
  Forall2 (fun u u' =>
             u' = u \/
             (User.id u = user_id /\ same_but_apiKey u u' /\
              User.apiKey u' = Some (IssueApiKeyResponse.api_key res)))
          (users w) (users w') /\
  (forall id', id' ≠ user_id ->
     row_by_id id' (users w') = row_by_id id' (users w)) /\
  SECRET_KEY w' = SECRET_KEY w /\ utc_clock w' = utc_clock w /\
  local_clock w' = local_clock w /\ entropy w' = entropy w /\
  (forall permissions2 now2,
     users (issue_api_key user_id permissions2 (set_local_clock w now2)).2
     = users w').
Proof.
  intros Hcall.
  destruct (issue_api_key_cases w user_id permissions)
    as [[_ Heq] | [(u & _ & _ & Heq) | (u & Hrow & Hrole & Heq)]];
    rewrite Heq in Hcall; try congruence.
  injection Hcall as <- <-. simpl.
  split.
  { eapply Forall2_impl; [apply update_row_frame |].
    intros v v' [-> | [Hid ->]]; [by left | right].
    split; [done |]. split; [apply with_apiKey_same | done]. }
  split; [intros id' Hne; by apply row_by_id_update_row_ne |].
  do 4 (split; [reflexivity |]).
  intros permissions2 now2.
  by rewrite (issue_api_key_ok (set_local_clock w now2) user_id permissions2 u).
Qed.

Lemma issue_api_key_frame_witness :
  row_by_id "u2" (users (issue_api_key "u1" ["read"] Reference.world).2)
  = row_by_id "u2" (users Reference.world).
Proof.
  refine (proj1 (proj2 (issue_api_key_frame Reference.world "u1" ["read"]
                          (IssueApiKeyResponse.mk (next_key Reference.world) ["read"]
                             (local_clock Reference.world + timedelta_days 365))
                          (issue_api_key "u1" ["read"] Reference.world).2 _)) "u2" _).
  - reflexivity.
  - discriminate.
Defined.

(** ** [create_access_token] and [authenticate_user] *)

Section AuthenticateProperties.
Context `{Passlib} `{PyJWT}.

Lemma decoded_claim_encode key payload name :
  decoded_claim key (jwt_encode payload key ALGORITHM) name = payload !! name.
Proof. unfold decoded_claim. by rewrite jwt_decode_encode. Qed.

(** The duration [create_access_token] adds to the clock. *)
Lemma create_access_token_eval w data expires_delta :
  create_access_token data expires_delta w
  = (Return (jwt_encode
               (<["exp" := CDatetime
                    (utc_clock w +
                     match expires_delta with
                     | Some delta =>
                         if timedelta_bool delta then delta
                         else timedelta_minutes 15
                     | None => timedelta_minutes 15
                     end)]> data)
               (SECRET_KEY w) ALGORITHM), w).
Proof.
  unfold create_access_token, mbind, M_bind, datetime_utcnow, read_SECRET_KEY.
  destruct expires_delta as [delta|]; [destruct (timedelta_bool delta) |];
    reflexivity.
Qed.

Lemma create_access_token_default w data :
  exists tok,
    create_access_token data None w = (Return tok, w) /\
    decoded_claim (SECRET_KEY w) tok "exp"
    = Some (CDatetime (utc_clock w + timedelta_minutes 15)).
Proof.
  eexists. split; [apply create_access_token_eval |].
  rewrite decoded_claim_encode. apply lookup_insert_eq.
Qed.

Lemma create_access_token_ttl w data delta :
  delta ≠ 0 ->
  exists tok,
    create_access_token data (Some delta) w = (Return tok, w) /\
    decoded_claim (SECRET_KEY w) tok "exp"
    = Some (CDatetime (utc_clock w + delta)).
Proof.
  intros Hdelta. eexists. split; [apply create_access_token_eval |].
  rewrite decoded_claim_encode, lookup_insert_eq.
  unfold timedelta_bool. by destruct (Z.eqb_spec delta 0).
Qed.

(** C8.  With [expires_delta = timedelta(0)], a duration that is
    supplied, the token [create_access_token] mints expires 15 minutes
    after the clock, not at the clock plus the duration supplied. *)
Theorem create_access_token_zero_ttl w data :
  exists tok,
    create_access_token data (Some 0) w = (Return tok, w) /\
    decoded_claim (SECRET_KEY w) tok "exp"
    = Some (CDatetime (utc_clock w + timedelta_minutes 15)) /\
    decoded_claim (SECRET_KEY w) tok "exp"
    ≠ Some (CDatetime (utc_clock w + 0)).
Proof.
  eexists. split; [apply create_access_token_eval |].
  rewrite decoded_claim_encode, lookup_insert_eq. simpl.
  split; [reflexivity |].
  unfold timedelta_minutes. intros [= Heq]. lia.
Qed.

(** The three outcomes of [authenticate_user], by the row the lookup
    finds and the verdict of the password check. *)
Lemma authenticate_user_cases w username password :
  (row_by_email username (users w) = None /\
   authenticate_user username password w
   = (Raise (HTTPException.mk 404 "User not found"), w)) \/
  (exists u, row_by_email username (users w) = Some u /\
   pwd_context_verify password (User.password u) = false /\
   authenticate_user username password w
   = (Raise (HTTPException.mk 401 "Incorrect username or password"), w)) \/
  (exists u, row_by_email username (users w) = Some u /\
   pwd_context_verify password (User.password u) = true /\
   authenticate_user username password w
   = (Return (AuthenticationResponse.mk
                (jwt_encode
                   (<["exp" := CDatetime (utc_clock w + timedelta_minutes 60)]>
                      {["sub" := CStr (User.email u)]})
                   (SECRET_KEY w) ALGORITHM)
                "bearer"), w)).
Proof.
  unfold authenticate_user, get_user, verify_password, mbind, M_bind,
    find_unique_email.
  destruct (row_by_email username (users w)) as [u|] eqn:Hrow;
    cbn -[create_access_token insert singletonM].
  - right. destruct (pwd_context_verify password (User.password u)) eqn:Hpw;
      cbn -[create_access_token insert singletonM].
    + right. exists u. split; [done |]. split; [done |].
      by rewrite create_access_token_eval.
    + left. by exists u.
  - by left.
Qed.

(** C1.  When a row has the given email and the password verifies
    against the hash stored in it, [authenticate_user] returns a
    response whose [token_type] is ["bearer"] and whose token decodes,
    under the secret and algorithm of the module, to an ["exp"] claim 60
    minutes after the UTC clock at issuance and a ["sub"] claim that is
    the email of the row, which is the username given. *)
Theorem authenticate_user_success w username password u :
  row_by_email username (users w) = Some u ->
  pwd_context_verify password (User.password u) = true ->
  exists tok,
    authenticate_user username password w
    = (Return (AuthenticationResponse.mk tok "bearer"), w) /\
    decoded_claim (SECRET_KEY w) tok "exp"
    = Some (CDatetime (utc_clock w + timedelta_minutes 60)) /\
    decoded_claim (SECRET_KEY w) tok "sub" = Some (CStr (User.email u)) /\
    User.email u = username.
Proof.
  intros Hrow Hpw.
  destruct (authenticate_user_cases w username password)
    as [[Hnone _] | [(v & Hv & Hfalse & _) | (v & Hv & _ & Heq)]].
  - congruence.
  - congruence.
  - assert (v = u) as -> by congruence.
    eexists. split; [exact Heq |].
    rewrite !decoded_claim_encode.
    split; [apply lookup_insert_eq |].
    split; [| by apply row_by_email_Some in Hrow as [? _]].
    rewrite lookup_insert_ne by done. apply lookup_singleton_eq.
Qed.

Lemma authenticate_user_world w username password :
  (authenticate_user username password w).2 = w.
Proof.
  destruct (authenticate_user_cases w username password)
    as [[_ Heq] | [(v & _ & _ & Heq) | (v & _ & _ & Heq)]];
    by rewrite Heq.
Qed.
End AuthenticateProperties.

Lemma authenticate_user_success_witness :
  exists tok,
    authenticate_user "alice@example.com" "correct horse" Reference.world
    = (Return (AuthenticationResponse.mk tok "bearer"), Reference.world) /\
    decoded_claim (SECRET_KEY Reference.world) tok "exp"
    = Some (CDatetime (utc_clock Reference.world + timedelta_minutes 60)) /\
    decoded_claim (SECRET_KEY Reference.world) tok "sub"
    = Some (CStr (User.email Reference.alice)) /\
    User.email Reference.alice = "alice@example.com".
Proof.
  apply (authenticate_user_success Reference.world "alice@example.com"
           "correct horse" Reference.alice); reflexivity.
Defined.

Section ErrorStatus.
Context `{Passlib} `{PyJWT}.

(** C2.  [authenticate_user] raises an [HTTPException] with status 404 for
    a username that no row has as its email, and one with status 401 for
    a row against whose stored hash the password does not verify.  These
    are the only two ways it raises: a 404 is raised only when there is
    no such row and a 401 only when there is one, so the two statuses are
    never swapped nor replaced by a third. *)
Theorem authenticate_user_error_status w username password :
  (row_by_email username (users w) = None ->
   authenticate_user username password w
   = (Raise (HTTPException.mk 404 "User not found"), w)) /\
  (forall u,
   row_by_email username (users w) = Some u ->
   pwd_context_verify password (User.password u) = false ->
   authenticate_user username password w
   = (Raise (HTTPException.mk 401 "Incorrect username or password"), w)) /\
  (forall e w',
   authenticate_user username password w = (Raise e, w') ->
   (HTTPException.status_code e = 404 /\
    row_by_email username (users w) = None) \/
   (HTTPException.status_code e = 401 /\
    exists u, row_by_email username (users w) = Some u /\
              pwd_context_verify password (User.password u) = false)).
Proof.
  destruct (authenticate_user_cases w username password)
    as [[Hrow Heq] | [(v & Hrow & Hpw & Heq) | (v & Hrow & Hpw & Heq)]];
    rewrite Heq.
  - split; [done |]. split; [intros u Hu; congruence |].
    intros e w' [= <- _]. by left.
  - split; [intros Hnone; congruence |]. split; [done |].
    intros e w' [= <- _]. right. split; [done |]. by exists v.
  - split; [intros Hnone; congruence |].
    split; [intros u Hu Hfalse; congruence |].
    intros e w' Hraise. discriminate Hraise.
Qed.
End ErrorStatus.

Lemma authenticate_user_error_status_witness :
  authenticate_user "nobody@example.com" "x" Reference.world
  = (Raise (HTTPException.mk 404 "User not found"), Reference.world) /\
  authenticate_user "alice@example.com" "wrong" Reference.world
  = (Raise (HTTPException.mk 401 "Incorrect username or password"),
     Reference.world).
Proof.
  split.
  - apply (proj1 (authenticate_user_error_status
                    Reference.world "nobody@example.com" "x")).
    reflexivity.
  - apply (proj1 (proj2 (authenticate_user_error_status
                           Reference.world "alice@example.com" "wrong"))
             Reference.alice); reflexivity.
Defined.

(** ** The endpoints *)

Lemma row_by_email_related email tbl1 tbl2 :
  Forall2 same_but_password tbl1 tbl2 ->
  option_Forall2 same_but_password (row_by_email email tbl1) (row_by_email email tbl2).
Proof.
  unfold row_by_email.
  induction 1 as [|u1 u2 tbl1 tbl2 Hu _ IH]; simpl; [constructor |].
  pose proof Hu as (_ & Hemail & _). rewrite <- Hemail.
  destruct (bool_decide (User.email u1 = email)); [| exact IH].
  by constructor.
Qed.

Lemma row_by_id_related id tbl1 tbl2 :
  Forall2 same_but_password tbl1 tbl2 ->
  option_Forall2 same_but_password (row_by_id id tbl1) (row_by_id id tbl2).
Proof.
  unfold row_by_id.
  induction 1 as [|u1 u2 tbl1 tbl2 Hu _ IH]; simpl; [constructor |].
  pose proof Hu as (Hid & _). rewrite <- Hid.
  destruct (bool_decide (User.id u1 = id)); [| exact IH].
  by constructor.
Qed.

Lemma update_row_related id key tbl1 tbl2 :
  Forall2 same_but_password tbl1 tbl2 ->
  Forall2 same_but_password (update_row id key tbl1) (update_row id key tbl2).
Proof.
  induction 1 as [|u1 u2 tbl1 tbl2 Hu Htbl IH]; simpl; [constructor |].
  pose proof Hu as (Hid & Hemail & Hrole & Hkey & Hother). rewrite <- Hid.
  destruct (bool_decide (User.id u1 = id)).
  - constructor; [by repeat split | done].
  - by constructor.
Qed.

Lemma issue_api_key_related w1 w2 user_id permissions :
  same_but_secrets w1 w2 ->
  (issue_api_key user_id permissions w1).1
  = (issue_api_key user_id permissions w2).1.
Proof.
  intros (Husers & _ & Hlocal & Hentropy & Hdraws).
  pose proof (row_by_id_related user_id _ _ Husers) as Hrow.
  assert (Hkey : next_key w1 = next_key w2)
    by (unfold next_key, next_uuid; by rewrite Hentropy, Hdraws).
  destruct (issue_api_key_cases w1 user_id permissions)
    as [[Hr1 ->] | [(u1 & Hr1 & Hrole1 & ->) | (u1 & Hr1 & Hrole1 & ->)]];
    rewrite Hr1 in Hrow; inversion Hrow as [? u2 Hu Hx Hr2 |]; subst; simpl.
  - by rewrite issue_api_key_not_found.
  - destruct Hu as (_ & _ & Hrole & _).
    rewrite (issue_api_key_denied w2 _ _ u2) by congruence. done.
  - destruct Hu as (_ & _ & Hrole & _).
    rewrite (issue_api_key_ok w2 _ _ u2) by congruence. simpl.
    by rewrite Hkey, Hlocal.
Qed.

Section ServerProperties.
Context `{Passlib} `{PyJWT} `{Starlette}.

Lemma except_clause_escapes e :
  except_clause e = inl (AttributeError "'dict' object has no attribute 'encode'").
Proof. reflexivity. Qed.

Lemma api_post_authenticate_user_eval w username password :
  api_post_authenticate_user username password w
  = match authenticate_user username password w with
    | (Return res, w') => (Returned (inl res), w')
    | (Raise e, w') =>
        (Escaped (AttributeError "'dict' object has no attribute 'encode'"), w')
    end.
Proof.
  unfold api_post_authenticate_user, try_except.
  destruct (authenticate_user username password w) as [[res|e] w']; [done |].
  by rewrite except_clause_escapes.
Qed.

Lemma api_post_issue_api_key_eval w user_id permissions :
  api_post_issue_api_key user_id permissions w
  = match issue_api_key user_id permissions w with
    | (Return res, w') => (Returned (inl res), w')
    | (Raise e, w') =>
        (Escaped (AttributeError "'dict' object has no attribute 'encode'"), w')
    end.
Proof.
  unfold api_post_issue_api_key, try_except.
  destruct (issue_api_key user_id permissions w) as [[res|e] w']; [done |].
  by rewrite except_clause_escapes.
Qed.
End ServerProperties.

(** ** The UUID drawn next *)

Lemma next_uuid_range w : 0 <= next_uuid w < 2 ^ 128.
Proof.
  unfold next_uuid. apply uuid_version4_range.
  apply Z.mod_pos_bound. lia.
Qed.

Lemma next_key_inj w1 w2 : next_key w1 = next_key w2 -> next_uuid w1 = next_uuid w2.
Proof. apply uuid_str_inj; apply next_uuid_range. Qed.

(** * Further properties of the services *)

(** ** The bits and the text of a version-4 UUID *)

Lemma const_testbit_out c n j :
  0 <= c < 2 ^ n -> j < 0 \/ n <= j -> Z.testbit c j = false.
Proof.
  intros Hc [Hj | Hj]; [by apply Z.testbit_neg_r | by apply bits_high_small with n].
Qed.

Local Ltac solve_forced :=
  repeat match goal with
         | |- context [(?a <=? ?b)] => destruct (Z.leb_spec a b); try lia
         | |- context [(?a =? ?b)] => destruct (Z.eqb_spec a b); try lia
         end;
  cbn [andb orb negb];
  rewrite ?andb_true_r, ?andb_false_r, ?orb_false_r, ?orb_true_r;
  try reflexivity.

Lemma uuid_version4_testbit r i :
  0 <= i ->
  Z.testbit (uuid_version4 r) i
  = if forced_bit i then (i =? 63) || (i =? 78) else Z.testbit r i.
Proof.
  intros Hi. unfold uuid_version4, forced_bit.
  change (Z.shiftl 0xc000 48) with (Z.shiftl 3 62).
  change (Z.shiftl 0x8000 48) with (Z.shiftl 1 63).
  change (Z.shiftl 0xf000 64) with (Z.shiftl 15 76).
  change (Z.shiftl 4 76) with (Z.shiftl 1 78).
  rewrite Z.lor_spec, Z.land_spec, Z.lor_spec, Z.land_spec.
  rewrite !Z.lnot_spec, !Z.shiftl_spec by lia.
  assert (Hcases : i < 62 \/ i = 62 \/ i = 63 \/ 64 <= i < 76 \/ i = 76 \/
                   i = 77 \/ i = 78 \/ i = 79 \/ 80 <= i) by lia.
  destruct Hcases as [H|[->|[->|[H|[->|[->|[->|[->|H]]]]]]]].
  - rewrite (const_testbit_out 3 2), (const_testbit_out 1 1),
      (const_testbit_out 15 4), (const_testbit_out 1 1) by lia.
    solve_forced.
  - solve_forced.
  - solve_forced.
  - rewrite (const_testbit_out 3 2), (const_testbit_out 1 1),
      (const_testbit_out 15 4), (const_testbit_out 1 1) by lia.
    solve_forced.
  - solve_forced.
  - solve_forced.
  - solve_forced.
  - solve_forced.
  - rewrite (const_testbit_out 3 2), (const_testbit_out 1 1),
      (const_testbit_out 15 4), (const_testbit_out 1 1) by lia.
    solve_forced.
Qed.

Lemma is_hex_hex_digit d : is_hex_digit (hex_digit d) = true.
Proof.
  destruct d as [|p|p]; [reflexivity | | reflexivity].
  do 5 (try destruct p as [p|p|]); reflexivity.
Qed.

Lemma nibble_testbit i x j :
  0 <= j -> Z.testbit (nibble i x) j = Z.testbit x (j + 4 * Z.of_nat i) && (j <? 4).
Proof.
  intros Hj. unfold nibble. rewrite Z.land_spec, Z.shiftr_spec by lia.
  f_equal. change 15 with (Z.ones 4). apply Z.testbit_ones_nonneg; lia.
Qed.

Lemma version_nibble r : nibble 19 (uuid_version4 r) = 4.
Proof.
  apply Z.bits_inj'. intros j Hj.
  rewrite nibble_testbit, uuid_version4_testbit by lia. unfold forced_bit.
  assert (Hcases : j = 0 \/ j = 1 \/ j = 2 \/ j = 3 \/ 4 <= j) by lia.
  destruct Hcases as [->|[->|[->|[->|H]]]]; try reflexivity.
  rewrite (const_testbit_out 4 3) by lia.
  destruct (Z.ltb_spec j 4); [lia |]. apply andb_false_r.
Qed.

Lemma variant_nibble r : 8 <= nibble 15 (uuid_version4 r) <= 11.
Proof.
  pose proof (nibble_range 15 (uuid_version4 r)) as Hrange.
  assert (H3 : Z.testbit (nibble 15 (uuid_version4 r)) 3 = true)
    by (rewrite nibble_testbit, uuid_version4_testbit by lia; reflexivity).
  assert (H2 : Z.testbit (nibble 15 (uuid_version4 r)) 2 = false)
    by (rewrite nibble_testbit, uuid_version4_testbit by lia; reflexivity).
  destruct (nibble 15 (uuid_version4 r)) as [|p|p]; [discriminate H3 | | lia].
  do 4 (try destruct p as [p|p|]); try discriminate H3; try discriminate H2; lia.
Qed.

Lemma variant_digit r : is_variant_digit (hex_digit (nibble 15 (uuid_version4 r))) = true.
Proof.
  pose proof (variant_nibble r) as Hv.
  assert (Hcases : nibble 15 (uuid_version4 r) = 8 \/ nibble 15 (uuid_version4 r) = 9 \/
                   nibble 15 (uuid_version4 r) = 10 \/ nibble 15 (uuid_version4 r) = 11)
    by lia.
  destruct Hcases as [->|[->|[->| ->]]]; reflexivity.
Qed.

Lemma all_hex_hex k x : all_hex (hex k x) = true.
Proof.
  induction k as [|k IH]; [reflexivity |].
  cbn [hex all_hex]. by rewrite is_hex_hex_digit, IH.
Qed.

Lemma uuid4_text_groups h :
  String.length h = 32%nat -> all_hex h = true ->
  char_is (Ascii.eqb "4") 12 h = true -> char_is is_variant_digit 16 h = true ->
  uuid4_text (uuid_groups h) = true.
Proof.
  intros Hlen.
  do 32 (destruct h as [|? h]; [discriminate Hlen |]).
  destruct h; [| discriminate Hlen]. clear Hlen.
  cbv [uuid4_text uuid_groups char_is String.substring String.append
       String.get String.length all_hex Nat.eqb].
  intros Hhex Hversion Hvariant.
  rewrite Hversion, Hvariant.
  repeat (apply andb_prop in Hhex as [Hc Hhex]; rewrite ?Hc; clear Hc).
  reflexivity.
Qed.

Lemma uuid4_text_uuid_str r : uuid4_text (uuid_str (uuid_version4 r)) = true.
Proof.
  apply uuid4_text_groups.
  - apply hex_length.
  - apply all_hex_hex.
  - unfold char_is. cbn [hex String.get]. by rewrite version_nibble.
  - unfold char_is. cbn [hex String.get]. apply variant_digit.
Qed.

(** ** Keys issued by [issue_api_key] *)

Lemma kept_bits_testbit r i :
  0 <= i -> Z.testbit (kept_bits r) i = Z.testbit r i && negb (forced_bit i).
Proof.
  intros Hi. unfold kept_bits, forced_bit.
  change (Z.shiftl 0xc000 48) with (Z.shiftl 3 62).
  change (Z.shiftl 0xf000 64) with (Z.shiftl 15 76).
  rewrite Z.land_spec, Z.lnot_spec, Z.lor_spec, !Z.shiftl_spec by lia.
  assert (Hcases : i < 62 \/ i = 62 \/ i = 63 \/ 64 <= i < 76 \/ i = 76 \/
                   i = 77 \/ i = 78 \/ i = 79 \/ 80 <= i) by lia.
  destruct Hcases as [H|[->|[->|[H|[->|[->|[->|[->|H]]]]]]]];
    try reflexivity;
    rewrite (const_testbit_out 3 2), (const_testbit_out 15 4) by lia;
    solve_forced.
Qed.

Lemma uuid_version4_eq_iff r1 r2 :
  uuid_version4 r1 = uuid_version4 r2 <-> kept_bits r1 = kept_bits r2.
Proof.
  split; intros Heq; apply Z.bits_inj'; intros i Hi.
  - rewrite !kept_bits_testbit by done.
    assert (Hbit : Z.testbit (uuid_version4 r1) i = Z.testbit (uuid_version4 r2) i)
      by (by rewrite Heq).
    rewrite !uuid_version4_testbit in Hbit by done.
    destruct (forced_bit i); [by rewrite !andb_false_r | by rewrite Hbit].
  - rewrite !uuid_version4_testbit by done.
    assert (Hbit : Z.testbit (kept_bits r1) i = Z.testbit (kept_bits r2) i)
      by (by rewrite Heq).
    rewrite !kept_bits_testbit in Hbit by done.
    destruct (forced_bit i); [done |]. by rewrite !andb_true_r in Hbit.
Qed.

Lemma issue_api_key_Return w user_id permissions res w' :
  issue_api_key user_id permissions w = (Return res, w') ->
  exists u,
    row_by_id user_id (users w) = Some u /\ User.role u = ADMIN /\
    res = IssueApiKeyResponse.mk (next_key w) permissions
            (local_clock w + timedelta_days 365) /\
    w' = set_users (set_draws w (S (draws w)))
                   (update_row user_id (next_key w) (users w)).
Proof.
  intros Hcall.
  destruct (issue_api_key_cases w user_id permissions)
    as [[_ Heq] | [(u & _ & _ & Heq) | (u & Hrow & Hrole & Heq)]];
    rewrite Heq in Hcall; try discriminate Hcall.
  injection Hcall as <- <-. by exists u.
Qed.

(** X9.  Every key [issue_api_key] returns has the textual shape of a
    version-4 UUID: lower-case hexadecimal groups of 8, 4, 4, 4 and 12
    digits separated by hyphens, with [4] opening the third group and one
    of [8], [9], [a], [b] opening the fourth. *)
Theorem issued_key_is_uuid4_text w user_id permissions res w' :
  issue_api_key user_id permissions w = (Return res, w') ->
  uuid4_text (IssueApiKeyResponse.api_key res) = true.
Proof.
  intros Hcall. apply issue_api_key_Return in Hcall as (u & _ & _ & -> & _).
  apply uuid4_text_uuid_str.
Qed.

(** X10.  Two keys returned by [issue_api_key] are equal exactly when
    the two 16-byte reads of entropy they were made from agree on the
    122 bits that [uuid4] keeps. *)
Theorem issued_keys_equal_iff w1 w2 id1 id2 permissions1 permissions2 res1 res2 w1' w2' :
  issue_api_key id1 permissions1 w1 = (Return res1, w1') ->
  issue_api_key id2 permissions2 w2 = (Return res2, w2') ->
  IssueApiKeyResponse.api_key res1 = IssueApiKeyResponse.api_key res2 <->
  kept_bits (entropy w1 (draws w1) mod 2 ^ 128)
  = kept_bits (entropy w2 (draws w2) mod 2 ^ 128).
Proof.
  intros Hcall1 Hcall2.
  apply issue_api_key_Return in Hcall1 as (u1 & _ & _ & -> & _).
  apply issue_api_key_Return in Hcall2 as (u2 & _ & _ & -> & _).
  simpl. rewrite <- uuid_version4_eq_iff. split.
  - apply next_key_inj.
  - unfold next_key, next_uuid. by intros ->.
Qed.

(** ** One live key per user *)

(** C5, as stated, fails: with an entropy source that repeats its bytes,
    two successive issuances for the same [ADMIN] user both succeed and
    return the same key. *)
Lemma same_key_issued_twice :
  (issue_api_key "u1" ["read"] Replay.world).1
  = Return (IssueApiKeyResponse.mk "01234567-89ab-4def-8123-456789abcdef" ["read"]
              (local_clock Replay.world + timedelta_days 365)) /\
  (issue_api_key "u1" ["write"] (issue_api_key "u1" ["read"] Replay.world).2).1
  = Return (IssueApiKeyResponse.mk "01234567-89ab-4def-8123-456789abcdef" ["write"]
              (local_clock Replay.world + timedelta_days 365)).
Proof. split; by vm_compute. Qed.

Section KeyInvariant.
Context `{Passlib} `{PyJWT}.

(** C5 (as amended).  In a table where ids are unique, no user has more
    than one key, and [issue_api_key] and [authenticate_user] leave a
    table where ids are unique and no user has more than one key.  When
    a key is issued twice for an [ADMIN] user, the second time in any
    world whose table is the one the first call left, both calls return
    a key; the two keys are equal exactly when the two reads of entropy
    agree on the bits that [uuid4] keeps; and afterwards the row of the
    user holds the second key, which is the only key the table has for
    that user. *)
Theorem one_live_key_per_user w :
  ids_unique (users w) ->
  at_most_one_key (users w) /\
  (forall user_id permissions,
     ids_unique (users (issue_api_key user_id permissions w).2) /\
     at_most_one_key (users (issue_api_key user_id permissions w).2)) /\
  (forall username password,
     ids_unique (users (authenticate_user username password w).2) /\
     at_most_one_key (users (authenticate_user username password w).2)) /\
  (forall user_id permissions1 permissions2 u w1,
     row_by_id user_id (users w) = Some u -> User.role u = ADMIN ->
     users w1 = users (issue_api_key user_id permissions1 w).2 ->
     exists r1 r2 w2,
       (issue_api_key user_id permissions1 w).1 = Return r1 /\
       issue_api_key user_id permissions2 w1 = (Return r2, w2) /\
       (IssueApiKeyResponse.api_key r1 = IssueApiKeyResponse.api_key r2 <->
        kept_bits (entropy w (draws w) mod 2 ^ 128)
        = kept_bits (entropy w1 (draws w1) mod 2 ^ 128)) /\
       row_by_id user_id (users w2)
       = Some (User.with_apiKey u (IssueApiKeyResponse.api_key r2)) /\
       live_keys user_id (users w2) = [IssueApiKeyResponse.api_key r2]).
Proof.
  intros Hunique.
  split; [by apply ids_unique_one_key |].
  split.
  { intros user_id permissions.
    assert (ids_unique (users (issue_api_key user_id permissions w).2)).
    { destruct (issue_api_key_cases w user_id permissions)
        as [[_ ->] | [(u & _ & _ & ->) | (u & _ & _ & ->)]]; simpl;
        auto using ids_unique_update_row. }
    auto using ids_unique_one_key. }
  split.
  { intros username password. rewrite authenticate_user_world.
    auto using ids_unique_one_key. }
  intros user_id permissions1 permissions2 u w1 Hrow Hrole Hw1.
  rewrite (issue_api_key_ok w user_id permissions1 u Hrow Hrole) in Hw1 |- *.
  simpl in Hw1.
  assert (Hrow1 : row_by_id user_id (users w1)
                  = Some (User.with_apiKey u (next_key w)))
    by (rewrite Hw1; by apply row_by_id_update_row).
  eexists _, _, _.
  split; [reflexivity |].
  split; [by apply issue_api_key_ok with (User.with_apiKey u (next_key w)) |].
  simpl.
  split.
  { rewrite <- uuid_version4_eq_iff. split.
    - apply next_key_inj.
    - unfold next_key, next_uuid. by intros ->. }
  split; [by rewrite (row_by_id_update_row _ _ _ _ Hrow1) |].
  apply live_keys_update_row with (User.with_apiKey u (next_key w));
    [| exact Hrow1].
  rewrite Hw1. by apply ids_unique_update_row.
Qed.
End KeyInvariant.

Lemma one_live_key_per_user_witness :
  exists r1 r2 w2,
    (issue_api_key "u1" ["read"] Reference.world).1 = Return r1 /\
    issue_api_key "u1" ["write"] (issue_api_key "u1" ["read"] Reference.world).2
    = (Return r2, w2) /\
    (IssueApiKeyResponse.api_key r1 = IssueApiKeyResponse.api_key r2 <->
     kept_bits (entropy Reference.world (draws Reference.world) mod 2 ^ 128)
     = kept_bits
         (entropy (issue_api_key "u1" ["read"] Reference.world).2
            (draws (issue_api_key "u1" ["read"] Reference.world).2) mod 2 ^ 128)) /\
    row_by_id "u1" (users w2)
    = Some (User.with_apiKey Reference.alice (IssueApiKeyResponse.api_key r2)) /\
    live_keys "u1" (users w2) = [IssueApiKeyResponse.api_key r2].
Proof.
  assert (Hunique : ids_unique (users Reference.world)).
  { unfold ids_unique. simpl. apply (bool_decide_unpack _). by vm_compute. }
  apply (proj2 (proj2 (proj2 (one_live_key_per_user Reference.world Hunique)))
           "u1" ["read"] ["write"] Reference.alice); reflexivity.
Defined.

(** ** Tokens and logins *)

Lemma row_by_email_None email tbl :
  row_by_email email tbl = None -> email ∉ (User.email <$> tbl).
Proof.
  unfold row_by_email. intros Hfind Hin.
  apply list_elem_of_fmap in Hin as (u & -> & Hu).
  apply list_elem_of_In in Hu.
  apply (find_none _ _ Hfind) in Hu. by apply bool_decide_eq_false in Hu.
Qed.

Lemma row_by_email_elem tbl u :
  emails_unique tbl -> u ∈ tbl -> row_by_email (User.email u) tbl = Some u.
Proof.
  unfold emails_unique, row_by_email.
  induction tbl as [|v tbl IH]; intros Hnodup Hin; [by apply elem_of_nil in Hin |].
  rewrite fmap_cons in Hnodup. apply NoDup_cons in Hnodup as [Hv Hnodup].
  cbn [find]. apply elem_of_cons in Hin as [-> | Hin].
  - by rewrite bool_decide_eq_true_2.
  - rewrite bool_decide_eq_false_2; [by apply IH |].
    intros Heq. apply Hv. rewrite Heq. by apply list_elem_of_fmap_2.
Qed.

Section MoreAuthenticate.
Context `{Passlib} `{PyJWT}.



Lemma authenticate_user_Return w username password res w' :
  authenticate_user username password w = (Return res, w') ->
  exists u,
    row_by_email username (users w) = Some u /\
    pwd_context_verify password (User.password u) = true /\
    res = AuthenticationResponse.mk
            (jwt_encode
               (<["exp" := CDatetime (utc_clock w + timedelta_minutes 60)]>
                  {["sub" := CStr (User.email u)]})
               (SECRET_KEY w) ALGORITHM)
            "bearer" /\
    w' = w.
Proof.
  intros Hcall.
  destruct (authenticate_user_cases w username password)
    as [[_ Heq] | [(u & _ & _ & Heq) | (u & Hrow & Hpw & Heq)]];
    rewrite Heq in Hcall; try discriminate Hcall.
  injection Hcall as <- <-. by exists u.
Qed.

(** X3.  [authenticate_user] returns a response only for credentials
    that check out: some row of the table has the username as its email
    and the password verifies against the hash stored in that row.  The
    response has token type ["bearer"] and the world is unchanged. *)
Theorem authenticate_user_sound w username password res w' :
  authenticate_user username password w = (Return res, w') ->
  exists u,
    u ∈ users w /\ User.email u = username /\
    pwd_context_verify password (User.password u) = true /\
    AuthenticationResponse.token_type res = "bearer" /\
    w' = w.
Proof.
  intros Hcall.
  apply authenticate_user_Return in Hcall as (u & Hrow & Hpw & -> & ->).
  apply row_by_email_Some in Hrow as [Hemail Hin].
  by exists u.
Qed.

(** X4.  The token of a successful login decodes to exactly two claims,
    ["sub"], the username, and ["exp"], 60 minutes after the clock:
    nothing else of the row (hash, id, role, key) is in it. *)
Theorem authenticate_user_token_payload w username password res w' :
  authenticate_user username password w = (Return res, w') ->
  exists payload,
    jwt_decode (AuthenticationResponse.access_token res) (SECRET_KEY w) ALGORITHM
    = Some payload /\
    dom payload = ({["sub"; "exp"]} : gset string) /\
    payload !! "sub" = Some (CStr username) /\
    payload !! "exp" = Some (CDatetime (utc_clock w + timedelta_minutes 60)).
Proof.
  intros Hcall.
  apply authenticate_user_Return in Hcall as (u & Hrow & Hpw & -> & ->).
  apply row_by_email_Some in Hrow as [Hemail _].
  eexists. split; [apply jwt_decode_encode |].
  split; [rewrite dom_insert_L, dom_singleton_L; set_solver |].
  split; [| apply lookup_insert_eq].
  rewrite lookup_insert_ne by done. rewrite lookup_singleton_eq.
  by rewrite Hemail.
Qed.

(** X5.  When emails are unique in the table, [get_user] called with
    the email of any row returns that very row, and leaves the world as
    it is. *)
Theorem get_user_complete w u :
  emails_unique (users w) -> u ∈ users w ->
  get_user (User.email u) w = (Return u, w).
Proof.
  intros Hunique Hin. unfold get_user, mbind, M_bind, find_unique_email.
  by rewrite (row_by_email_elem _ _ Hunique Hin).
Qed.

(** X6.  When [authenticate_user] fails, the world is unchanged and the
    status of the exception tells whether the email is registered: 404
    exactly when no row has the username as its email, 401 exactly when
    some row has. *)
Theorem authenticate_user_failure_status w username password e w' :
  authenticate_user username password w = (Raise e, w') ->
  w' = w /\
  (HTTPException.status_code e = 404 <-> username ∉ (User.email <$> users w)) /\
  (HTTPException.status_code e = 401 <-> username ∈ (User.email <$> users w)).
Proof.
  intros Hcall.
  destruct (authenticate_user_cases w username password)
    as [[Hrow Heq] | [(u & Hrow & _ & Heq) | (u & _ & _ & Heq)]];
    rewrite Heq in Hcall; try discriminate Hcall;
    injection Hcall as <- <-; (split; [done |]); simpl.
  - apply row_by_email_None in Hrow. split; split; try done; lia.
  - apply row_by_email_Some in Hrow as [<- Hin].
    assert (User.email u ∈ User.email <$> users w) by by apply list_elem_of_fmap_2.
    split; split; try done; lia.
Qed.
End MoreAuthenticate.

(** ** Rows, composition and endpoints *)

Lemma update_row_elem id key tbl u v :
  row_by_id id tbl = Some u -> v ∈ tbl -> v ≠ u -> v ∈ update_row id key tbl.
Proof.
  unfold row_by_id. induction tbl as [|x tbl IH]; [done |].
  cbn [find update_row]. intros Hrow Hin Hne.
  destruct (bool_decide (User.id x = id)).
  - injection Hrow as ->. apply elem_of_cons in Hin as [-> | Hin]; [done |].
    by apply elem_of_cons; right.
  - apply elem_of_cons in Hin as [-> | Hin]; apply elem_of_cons; [by left |].
    right. by apply IH.
Qed.

Lemma row_by_email_update_row email id key tbl :
  option_Forall2 same_but_apiKey
    (row_by_email email tbl) (row_by_email email (update_row id key tbl)).
Proof.
  unfold row_by_email. induction tbl as [|x tbl IH]; [constructor |].
  cbn [find update_row].
  destruct (bool_decide (User.id x = id)); cbn [find User.with_apiKey User.email].
  - destruct (bool_decide (User.email x = email)).
    + constructor. apply with_apiKey_same.
    + destruct (find _ tbl); constructor. by repeat split.
  - destruct (bool_decide (User.email x = email)); [| exact IH].
    constructor. by repeat split.
Qed.

(** X7.  [issue_api_key] returns a grant only when the id is that of a
    row whose role is [ADMIN]; the grant carries the permissions passed
    in, one read of entropy has been made and the table has as many rows
    as before. *)
Theorem issue_api_key_authorized w user_id permissions res w' :
  issue_api_key user_id permissions w = (Return res, w') ->
  exists u,
    u ∈ users w /\ User.id u = user_id /\ User.role u = ADMIN /\
    IssueApiKeyResponse.permissions res = permissions /\
    draws w' = S (draws w) /\ length (users w') = length (users w).
Proof.
  intros Hcall.
  apply issue_api_key_Return in Hcall as (u & Hrow & Hrole & -> & ->).
  apply row_by_id_Some in Hrow as [Hid Hin].
  exists u. repeat split; try done. simpl.
  rewrite <- (length_fmap User.id), update_row_ids. apply length_fmap.
Qed.

(** X8.  No call of [issue_api_key], whatever its arguments and outcome,
    changes a row whose role is not [ADMIN]: every such row of the table
    is still in the table afterwards. *)
Theorem non_admin_rows_untouched w user_id permissions v :
  v ∈ users w -> User.role v ≠ ADMIN ->
  v ∈ users (issue_api_key user_id permissions w).2.
Proof.
  intros Hin Hrole.
  destruct (issue_api_key_cases w user_id permissions)
    as [[_ ->] | [(u & _ & _ & ->) | (u & Hrow & Hadmin & ->)]]; simpl; try done.
  apply update_row_elem with u; [done | done |]. congruence.
Qed.

(** X13.  Keys issued one after the other to two different [ADMIN]
    users do not disturb each other: afterwards each of the two rows
    holds the key returned for it. *)
Theorem issue_api_key_two_users w id_a id_b permissions_a permissions_b a b :
  row_by_id id_a (users w) = Some a -> User.role a = ADMIN ->
  row_by_id id_b (users w) = Some b -> User.role b = ADMIN ->
  id_a ≠ id_b ->
  exists res_a w1 res_b w2,
    issue_api_key id_a permissions_a w = (Return res_a, w1) /\
    issue_api_key id_b permissions_b w1 = (Return res_b, w2) /\
    row_by_id id_a (users w2)
    = Some (User.with_apiKey a (IssueApiKeyResponse.api_key res_a)) /\
    row_by_id id_b (users w2)
    = Some (User.with_apiKey b (IssueApiKeyResponse.api_key res_b)).
Proof.
  intros Ha Hrole_a Hb Hrole_b Hne.
  eexists _, _, _, _.
  split; [by apply issue_api_key_ok with a |].
  assert (Hb1 : row_by_id id_b
                  (users (set_users (set_draws w (S (draws w)))
                            (update_row id_a (next_key w) (users w))))
                = Some b)
    by (simpl; by rewrite row_by_id_update_row_ne).
  split; [by apply issue_api_key_ok with b |].
  simpl. split.
  - rewrite row_by_id_update_row_ne by done. by apply row_by_id_update_row.
  - by apply row_by_id_update_row.
Qed.

Section MoreServer.
Context `{Passlib} `{PyJWT} `{Starlette}.

Lemma authenticate_user_ext w1 w2 username password :
  option_Forall2 same_but_apiKey
    (row_by_email username (users w1)) (row_by_email username (users w2)) ->
  utc_clock w1 = utc_clock w2 -> SECRET_KEY w1 = SECRET_KEY w2 ->
  (authenticate_user username password w1).1
  = (authenticate_user username password w2).1.
Proof.
  intros Hrow Hclock Hkey.
  destruct (authenticate_user_cases w1 username password)
    as [[Hr1 ->] | [(u1 & Hr1 & Hpw1 & ->) | (u1 & Hr1 & Hpw1 & ->)]];
    destruct (authenticate_user_cases w2 username password)
      as [[Hr2 ->] | [(u2 & Hr2 & Hpw2 & ->) | (u2 & Hr2 & Hpw2 & ->)]];
    rewrite Hr1, Hr2 in Hrow; inversion Hrow as [? ? (_ & Hemail & Hpass & _) |];
    subst; simpl; try done; try congruence.
Qed.

(** X12.  Issuing an API key, to whomever and with whatever outcome,
    does not change the result of a login attempted afterwards: the same
    exception or the same response, token included. *)
Theorem login_unaffected_by_issue w user_id permissions username password :
  (authenticate_user username password (issue_api_key user_id permissions w).2).1
  = (authenticate_user username password w).1.
Proof.
  destruct (issue_api_key_cases w user_id permissions)
    as [[_ ->] | [(u & _ & _ & ->) | (u & _ & _ & ->)]]; simpl; try done.
  symmetry. apply authenticate_user_ext; [| done | done].
  simpl. apply row_by_email_update_row.
Qed.

(** X11.  For a missing user and for a user who is not [ADMIN] the
    endpoint [api_post_issue_api_key] returns nothing: its [except]
    clause fails while building the response, and an [AttributeError]
    leaves the function in place of the exception of the service; the
    world is unchanged.  For an [ADMIN] user the endpoint returns the
    grant of the service as it is. *)
Theorem api_post_issue_api_key_outcome w user_id permissions :
  (row_by_id user_id (users w) = None ->
   api_post_issue_api_key user_id permissions w
   = (Escaped (AttributeError "'dict' object has no attribute 'encode'"), w)) /\
  (forall u,
   row_by_id user_id (users w) = Some u -> User.role u ≠ ADMIN ->
   api_post_issue_api_key user_id permissions w
   = (Escaped (AttributeError "'dict' object has no attribute 'encode'"), w)) /\
  (forall u,
   row_by_id user_id (users w) = Some u -> User.role u = ADMIN ->
   exists res w',
     issue_api_key user_id permissions w = (Return res, w') /\
     api_post_issue_api_key user_id permissions w = (Returned (inl res), w')).
Proof.
  rewrite api_post_issue_api_key_eval.
  split; [| split].
  - intros Hrow. by rewrite issue_api_key_not_found.
  - intros u Hrow Hrole. by rewrite (issue_api_key_denied _ _ _ u).
  - intros u Hrow Hrole. rewrite (issue_api_key_ok _ _ _ u) by done.
    by eexists _, _.
Qed.

(** X14.  Neither endpoint ever returns an error response, and neither
    lets the exception of its service through.  What an endpoint returns
    is the value its service returned; what leaves an endpoint is an
    [AttributeError], and it does so exactly when the service raised.
    In both cases the world is the one the service left. *)
Theorem endpoint_outcomes w :
  (forall username password,
     (forall out w',
        api_post_authenticate_user username password w = (Returned out, w') ->
        exists res,
          out = inl res /\
          authenticate_user username password w = (Return res, w')) /\
     (forall exc w',
        api_post_authenticate_user username password w = (Escaped exc, w') ->
        exc = AttributeError "'dict' object has no attribute 'encode'" /\
        exists e, authenticate_user username password w = (Raise e, w'))) /\
  (forall user_id permissions,
     (forall out w',
        api_post_issue_api_key user_id permissions w = (Returned out, w') ->
        exists res,
          out = inl res /\
          issue_api_key user_id permissions w = (Return res, w')) /\
     (forall exc w',
        api_post_issue_api_key user_id permissions w = (Escaped exc, w') ->
        exc = AttributeError "'dict' object has no attribute 'encode'" /\
        exists e, issue_api_key user_id permissions w = (Raise e, w'))).
Proof.
  split.
  - intros username password. rewrite api_post_authenticate_user_eval.
    destruct (authenticate_user username password w) as [[res|e] v]; split;
      intros ? ? [= <- <-]; eauto.
  - intros user_id permissions. rewrite api_post_issue_api_key_eval.
    destruct (issue_api_key user_id permissions w) as [[res|e] v]; split;
      intros ? ? [= <- <-]; eauto.
Qed.

(** X15.  Take two worlds that differ at most in the stored password
    hashes and in the signing secret.  [issue_api_key] gives the same
    result in both, and when [authenticate_user] raises an
    [HTTPException] in both, it is the same exception. *)
Theorem results_independent_of_secrets w1 w2 :
  same_but_secrets w1 w2 ->
  (forall user_id permissions,
     (issue_api_key user_id permissions w1).1
     = (issue_api_key user_id permissions w2).1) /\
  (forall username password e1 e2 w1' w2',
     authenticate_user username password w1 = (Raise e1, w1') ->
     authenticate_user username password w2 = (Raise e2, w2') ->
     e1 = e2).
Proof.
  intros Hsame.
  split; [intros; by apply issue_api_key_related |].
  intros username password e1 e2 w1' w2' Hcall1 Hcall2.
  destruct Hsame as (Husers & _).
  pose proof (row_by_email_related username _ _ Husers) as Hrow.
  destruct (authenticate_user_cases w1 username password)
    as [[Hr1 Heq1] | [(u1 & Hr1 & _ & Heq1) | (u1 & _ & _ & Heq1)]];
    rewrite Heq1 in Hcall1; [| | discriminate Hcall1];
    destruct (authenticate_user_cases w2 username password)
      as [[Hr2 Heq2] | [(u2 & Hr2 & _ & Heq2) | (u2 & _ & _ & Heq2)]];
    rewrite Heq2 in Hcall2; try discriminate Hcall2;
    rewrite Hr1, Hr2 in Hrow; inversion Hrow; congruence.
Qed.
End MoreServer.

(** ** Witnesses *)

Lemma authenticate_user_sound_witness :
  exists u,
    u ∈ users Reference.world /\ User.email u = "alice@example.com" /\
    pwd_context_verify "correct horse" (User.password u) = true /\
    AuthenticationResponse.token_type
      (AuthenticationResponse.mk
         (jwt_encode
            (<["exp" := CDatetime (utc_clock Reference.world + timedelta_minutes 60)]>
               {["sub" := CStr "alice@example.com"]})
            SECRET_KEY_default ALGORITHM)
         "bearer") = "bearer" /\
    Reference.world = Reference.world.
Proof.
  apply (authenticate_user_sound Reference.world "alice@example.com" "correct horse").
  by vm_compute.
Defined.

Lemma authenticate_user_token_payload_witness :
  exists payload,
    jwt_decode
      (jwt_encode
         (<["exp" := CDatetime (utc_clock Reference.world + timedelta_minutes 60)]>
            {["sub" := CStr "alice@example.com"]})
         SECRET_KEY_default ALGORITHM)
      (SECRET_KEY Reference.world) ALGORITHM = Some payload /\
    dom payload = ({["sub"; "exp"]} : gset string) /\
    payload !! "sub" = Some (CStr "alice@example.com") /\
    payload !! "exp"
    = Some (CDatetime (utc_clock Reference.world + timedelta_minutes 60)).
Proof.
  apply (authenticate_user_token_payload Reference.world "alice@example.com"
           "correct horse"
           (AuthenticationResponse.mk
              (jwt_encode
                 (<["exp" := CDatetime (utc_clock Reference.world + timedelta_minutes 60)]>
                    {["sub" := CStr "alice@example.com"]})
                 SECRET_KEY_default ALGORITHM)
              "bearer")
           Reference.world).
  by vm_compute.
Defined.

Lemma get_user_complete_witness :
  get_user "bob@example.com" Reference.world = (Return Reference.bob, Reference.world).
Proof.
  apply (get_user_complete Reference.world Reference.bob).
  - unfold emails_unique. simpl. apply (bool_decide_unpack _). by vm_compute.
  - simpl. apply list_elem_of_further, list_elem_of_here.
Defined.

Lemma authenticate_user_failure_status_witness :
  Reference.world = Reference.world /\
  (HTTPException.status_code (HTTPException.mk 401 "Incorrect username or password")
   = 404 <-> "alice@example.com" ∉ (User.email <$> users Reference.world)) /\
  (HTTPException.status_code (HTTPException.mk 401 "Incorrect username or password")
   = 401 <-> "alice@example.com" ∈ (User.email <$> users Reference.world)).
Proof.
  apply (authenticate_user_failure_status Reference.world "alice@example.com" "wrong").
  reflexivity.
Defined.

Lemma issue_api_key_authorized_witness :
  exists u,
    u ∈ users Reference.world /\ User.id u = "u1" /\ User.role u = ADMIN /\
    IssueApiKeyResponse.permissions
      (IssueApiKeyResponse.mk (next_key Reference.world) ["read"]
         (local_clock Reference.world + timedelta_days 365)) = ["read"] /\
    draws (issue_api_key "u1" ["read"] Reference.world).2 = 1%nat /\
    length (users (issue_api_key "u1" ["read"] Reference.world).2)
    = length (users Reference.world).
Proof.
  apply (issue_api_key_authorized Reference.world "u1" ["read"]).
  reflexivity.
Defined.

Lemma non_admin_rows_untouched_witness :
  Reference.bob ∈ users (issue_api_key "u2" ["admin"] Reference.world).2 /\
  Reference.bob ∈ users (issue_api_key "u1" ["admin"] Reference.world).2.
Proof.
  split.
  - apply (non_admin_rows_untouched Reference.world "u2" ["admin"] Reference.bob).
    + simpl. apply list_elem_of_further, list_elem_of_here.
    + discriminate.
  - apply (non_admin_rows_untouched Reference.world "u1" ["admin"] Reference.bob).
    + simpl. apply list_elem_of_further, list_elem_of_here.
    + discriminate.
Defined.

Lemma issued_key_is_uuid4_text_witness :
  uuid4_text (next_key Reference.world) = true.
Proof.
  apply (issued_key_is_uuid4_text Reference.world "u1" ["read"]
           (IssueApiKeyResponse.mk (next_key Reference.world) ["read"]
              (local_clock Reference.world + timedelta_days 365))
           (issue_api_key "u1" ["read"] Reference.world).2).
  reflexivity.
Defined.

Lemma issued_keys_equal_iff_witness :
  next_key Reference.world = next_key Office.world <->
  kept_bits (entropy Reference.world 0 mod 2 ^ 128)
  = kept_bits (entropy Office.world 0 mod 2 ^ 128).
Proof.
  apply (issued_keys_equal_iff Reference.world Office.world "u1" "u3"
           ["read"] ["write"]
           (IssueApiKeyResponse.mk (next_key Reference.world) ["read"]
              (local_clock Reference.world + timedelta_days 365))
           (IssueApiKeyResponse.mk (next_key Office.world) ["write"]
              (local_clock Office.world + timedelta_days 365))
           (issue_api_key "u1" ["read"] Reference.world).2
           (issue_api_key "u3" ["write"] Office.world).2);
    reflexivity.
Defined.

Lemma issue_api_key_two_users_witness :
  exists res_a w1 res_b w2,
    issue_api_key "u1" ["read"] Office.world = (Return res_a, w1) /\
    issue_api_key "u3" ["write"] w1 = (Return res_b, w2) /\
    row_by_id "u1" (users w2)
    = Some (User.with_apiKey Reference.alice (IssueApiKeyResponse.api_key res_a)) /\
    row_by_id "u3" (users w2)
    = Some (User.with_apiKey Office.carol (IssueApiKeyResponse.api_key res_b)).
Proof.
  apply (issue_api_key_two_users Office.world "u1" "u3" ["read"] ["write"]
           Reference.alice Office.carol);
    [reflexivity | reflexivity | reflexivity | reflexivity | discriminate].
Defined.

Lemma api_post_issue_api_key_outcome_witness :
  api_post_issue_api_key "u9" ["read"] Reference.world
  = (Escaped (AttributeError "'dict' object has no attribute 'encode'"),
     Reference.world) /\
  api_post_issue_api_key "u2" ["read"] Reference.world
  = (Escaped (AttributeError "'dict' object has no attribute 'encode'"),
     Reference.world).
Proof.
  split.
  - apply (proj1 (api_post_issue_api_key_outcome Reference.world "u9" ["read"])).
    reflexivity.
  - apply (proj1 (proj2 (api_post_issue_api_key_outcome Reference.world "u2" ["read"]))
             Reference.bob); [reflexivity | discriminate].
Defined.



Lemma results_independent_of_secrets_witness :
  (issue_api_key "u1" ["admin"] Reference.world).1
  = (issue_api_key "u1" ["admin"] Reference.world').1.
Proof.
  assert (Hsame : same_but_secrets Reference.world Reference.world').
  { unfold same_but_secrets. simpl. repeat split; repeat constructor. }
  apply (proj1 (results_independent_of_secrets Reference.world Reference.world' Hsame)).
Defined.

Lemma endpoint_outcomes_witness :
  AttributeError "'dict' object has no attribute 'encode'"
  = AttributeError "'dict' object has no attribute 'encode'" /\
  exists e,
    authenticate_user "alice@example.com" "wrong" Reference.world
    = (Raise e, Reference.world).
Proof.
  apply (proj2 (proj1 (endpoint_outcomes Reference.world)
                  "alice@example.com" "wrong")).
  reflexivity.
Defined.
